(** * Shape dispatch in [advanced-types/src/app.ts]

    A shallow embedding of the five dispatch functions of the script
    ([add], [printEmployeeInformation], [operateVehicle], [moveFauna],
    [addCombinable]) together with the fragment of the ECMAScript
    run-time they rely on: IEEE binary64 numbers and their string
    conversion, primitive values, [typeof], [+], strict equality,
    property lookup on object literals, method calls on class instances,
    [String.prototype.split] and [console.log].

    Types are erased when the script runs, so the functions are embedded
    on run-time values, not on their declared parameter types; the
    declared types come back as hypotheses where a statement needs them.
    The values are the primitives ([undefined], [null], booleans, numbers,
    strings; no symbols or bigints), [Date] objects and arrays of
    primitives.  A string is the sequence of its code units, each a
    character here, so that only code units below 256 occur.  Objects are
    object literals with data properties (no accessors, no inherited
    properties) and instances of the two classes of the script. *)

From Stdlib Require Import ZArith String Ascii List Bool Lia DecimalString.
From Stdlib Require Import Floats.SpecFloat.
From stdpp Require Import base option gmap strings list.

Local Open Scope Z_scope.

(** ** Numbers

    A JavaScript [number] is an IEEE 754 binary64 value.  [SpecFloat]
    gives the exact arithmetic on them (one NaN, signed zeros,
    round to nearest even). *)
Module Num.

Definition number : Type := spec_float.

Definition prec : Z := 53.
Definition emax : Z := 1024.

Definition NaN : number := S754_nan.
Definition posZero : number := S754_zero false.

(** The number denoted by an integer literal. *)
Definition ofZ (z : Z) : number := binary_normalize prec emax z 0 false.

(** [x + y] on numbers. *)
Definition plus (x y : number) : number := SFadd prec emax x y.

(** Mantissa and exponent brought to the canonical binary64 form. *)
Definition canon (x : number) : number :=
  match x with
  | S754_finite s m e => binary_round prec emax s m e
  | _ => x
  end.

(** [x === y] on numbers: NaN differs from itself, the zeros are equal. *)
Definition eqb (x y : number) : bool := SFeqb (canon x) (canon y).

(** 𝔽(s × 10^j): the number nearest to the decimal [s × 10^j], [0 < s]. *)
Definition ofDecimal (s j : Z) : number :=
  if 0 <=? j then binary_normalize prec emax (s * 10 ^ j) 0 false
  else
    let '(mz, ez, lz) := SFdiv_core_binary prec emax s 0 (10 ^ (- j)) 0 in
    binary_round_aux prec emax false mz ez lz.

(** Numerator and denominator of [m × 2^e / 10^j]. *)
Definition scaledNum (m e j : Z) : Z := m * 2 ^ Z.max e 0 * 10 ^ Z.max (- j) 0.
Definition scaledDen (e j : Z) : Z := 2 ^ Z.max (- e) 0 * 10 ^ Z.max j 0.

(** [m × 2^e < 10^n] *)
Definition belowPow10 (m e n : Z) : bool := scaledNum m e n <? scaledDen e n.

(** The [n] with [10^(n-1) ≤ m × 2^e < 10^n], reached from an estimate. *)
Fixpoint adjustExp (fuel : nat) (m e n : Z) : Z :=
  match fuel with
  | O => n
  | S fuel' =>
      if belowPow10 m e (n - 1) then adjustExp fuel' m e (n - 1)
      else if belowPow10 m e n then n
      else adjustExp fuel' m e (n + 1)
  end.

Definition decimalExp (m e : Z) : Z :=
  adjustExp 8 m e (((Z.log2 m + e) * 30103) / 100000 + 1).

(** Same sign-less mantissa and exponent. *)
Definition sameFinite (x y : number) : bool :=
  match x, y with
  | S754_finite _ m1 e1, S754_finite _ m2 e2 => Pos.eqb m1 m2 && Z.eqb e1 e2
  | _, _ => false
  end.

(** The candidate [s] at [k] digits: of the two integers around
    [m × 2^e / 10^(n-k)], one that converts back to the number [x]; when
    both do, the nearer one, and the even one when they are equally
    near. *)
Definition candidate (x : number) (m e n k : Z) : option Z :=
  let j := n - k in
  let num := scaledNum m e j in
  let den := scaledDen e j in
  let q := num / den in
  let r := num mod den in
  let lo := (0 <? q) && sameFinite (ofDecimal q j) x in
  let hi := sameFinite (ofDecimal (q + 1) j) x in
  if Z.eqb r 0 then (if lo then Some q else None)
  else if lo && hi then
    (if 2 * r <? den then Some q
     else if den <? 2 * r then Some (q + 1)
     else if Z.even q then Some q else Some (q + 1))
  else if lo then Some q
  else if hi then Some (q + 1)
  else None.

(** The shortest [s]: the least [k] that has a candidate. *)
Fixpoint shortest (fuel : nat) (x : number) (m e n k : Z) : Z * Z :=
  match fuel with
  | O => (scaledNum m e (n - k) / scaledDen e (n - k), n - k)
  | S fuel' =>
      match candidate x m e n k with
      | Some s => (s, n - k)
      | None => shortest fuel' x m e n (k + 1)
      end
  end.

Definition digitsOf (z : Z) : string := NilZero.string_of_uint (N.to_uint (Z.to_N z)).

Fixpoint zeros (n : nat) : string :=
  match n with
  | O => EmptyString
  | S n' => String "0" (zeros n')
  end.

(** Trailing ["0"] characters removed (of a string that does not consist
    of them only). *)
Fixpoint stripZeros (s : string) : string :=
  match s with
  | EmptyString => EmptyString
  | String c rest =>
      match stripZeros rest with
      | EmptyString => if Ascii.eqb c "0" then EmptyString else String c EmptyString
      | t => String c t
      end
  end.

Definition lengthZ (s : string) : Z := Z.of_nat (String.length s).

(** Steps 6 to 10 of Number::toString: the digits [ds] of [s] and the
    position [n] of the decimal point. *)
Definition layout (ds : string) (n : Z) : string :=
  let k := lengthZ ds in
  if (-5 <=? n) && (n <=? 21) then
    if k <=? n then ds +:+ zeros (Z.to_nat (n - k))
    else if 0 <? n then
      substring 0 (Z.to_nat n) ds +:+ "." +:+ substring (Z.to_nat n) (Z.to_nat (k - n)) ds
    else "0." +:+ zeros (Z.to_nat (- n)) +:+ ds
  else
    let e := n - 1 in
    let sign := if 0 <=? e then "+" else "-" in
    let mant := if Z.eqb k 1 then ds
                else substring 0 1 ds +:+ "." +:+ substring 1 (Z.to_nat (k - 1)) ds in
    mant +:+ "e" +:+ sign +:+ digitsOf (Z.abs e).

Definition finiteToString (m : positive) (e : Z) : string :=
  let x := S754_finite false m e in
  let n := decimalExp (Zpos m) e in
  let '(s, j) := shortest 17 x (Zpos m) e n 1 in
  let all := digitsOf s in
  layout (stripZeros all) (j + lengthZ all).

(** Number::toString(x, 10). *)
Definition toString (x : number) : string :=
  match canon x with
  | S754_nan => "NaN"
  | S754_zero _ => "0"
  | S754_infinity s => if s then "-Infinity" else "Infinity"
  | S754_finite s m e =>
      (if s then "-" else "") +:+ finiteToString m e
  end.

End Num.

Abbreviation number := Num.number.

(** ** Values

    Primitive values, and the two kinds of built-in object a record of the
    script holds as a property: a [Date] (its time value) and an array.
    The only array type the script declares is [string[]]; arrays hold
    primitive elements. *)
Inductive prim : Type :=
  | PUndefined
  | PNull
  | PBool (b : bool)
  | PNumber (n : number)
  | PString (s : string).

Inductive value : Type :=
  | VPrim (p : prim)
  | VDate (tv : number)
  | VArray (elems : list prim).

Coercion VPrim : prim >-> value.

Definition undefined : value := VPrim PUndefined.
Definition str (s : string) : value := VPrim (PString s).
Definition num (z : Z) : value := VPrim (PNumber (Num.ofZ z)).

(** The results of [typeof]. *)
Inductive typeTag : Type :=
  | TUndefined | TObject | TBoolean | TNumber | TString.

Global Instance typeTag_eq_dec : EqDecision typeTag.
Proof. solve_decision. Defined.

Definition typeof (v : value) : typeTag :=
  match v with
  | VPrim PUndefined => TUndefined
  | VPrim PNull => TObject
  | VPrim (PBool _) => TBoolean
  | VPrim (PNumber _) => TNumber
  | VPrim (PString _) => TString
  | VDate _ | VArray _ => TObject
  end.

(** [v === p] for a primitive [p]: no conversion; an object is never equal
    to a primitive. *)
Definition strictEq (v : value) (p : prim) : bool :=
  match v, p with
  | VPrim PUndefined, PUndefined => true
  | VPrim PNull, PNull => true
  | VPrim (PBool a), PBool b => Bool.eqb a b
  | VPrim (PNumber x), PNumber y => Num.eqb x y
  | VPrim (PString s), PString t => String.eqb s t
  | _, _ => false
  end.

(** ** Objects, the store and the trace

    The records and class instances handed to the dispatch functions live
    in a store and are passed by reference, as in the script.  What a run
    does to the outside is a trace: the lines given to [console.log] and
    the method invocations on class instances. *)
Definition loc : Type := positive.

Inductive className : Type := Car | Truck.

Global Instance className_eq_dec : EqDecision className.
Proof. solve_decision. Defined.

Inductive object : Type :=
  | OPlain (props : gmap string value)
  | OInstance (c : className).

Inductive event : Type :=
  | Log (line : string)
  | Invoke (recv : loc) (meth : string) (args : list value).

Record state : Type := mkState {
  heap : gmap loc object;
  trace : list event
}.

Inductive error : Type :=
  | TypeError
  | NoSuchObject (l : loc).

Inductive outcome (A : Type) : Type :=
  | Normal (a : A)
  | Throw (e : error).

Arguments Normal {A} a.
Arguments Throw {A} e.

(** Computations: state passing, with exceptions. *)
Definition M (A : Type) : Type := state → outcome A * state.

Global Instance M_ret : MRet M := λ A a σ, (Normal a, σ).

Global Instance M_bind : MBind M := λ A B f m σ,
  match m σ with
  | (Normal a, σ') => f a σ'
  | (Throw e, σ') => (Throw e, σ')
  end.

Definition throw {A : Type} (e : error) : M A := λ σ, (Throw e, σ).

(** The state with the events [evs] appended to its trace. *)
Definition emit (σ : state) (evs : list event) : state :=
  mkState (heap σ) (trace σ ++ evs).

Definition record (ev : event) : M unit := λ σ, (Normal (), emit σ [ev]).

(** [console.log(line)] *)
Definition console_log (line : string) : M unit := record (Log line).

Definition deref (l : loc) : M object := λ σ,
  match heap σ !! l with
  | Some o => (Normal o, σ)
  | None => (Throw (NoSuchObject l), σ)
  end.

(** [o.k] on the data properties: an absent property reads [undefined]. *)
Definition getProp (l : loc) (k : string) : M value :=
  o ← deref l;
  match o with
  | OPlain props => mret (default undefined (props !! k))
  | OInstance _ => mret undefined
  end.

(** [k in o] on the data properties. *)
Definition hasProp (k : string) (l : loc) : M bool :=
  o ← deref l;
  match o with
  | OPlain props => mret (bool_decide (is_Some (props !! k)))
  | OInstance _ => mret false
  end.

(** [o.k = v]: the one statement that changes a record.  No dispatch
    function uses it. *)
Definition setProp (l : loc) (k : string) (v : value) : M unit :=
  o ← deref l;
  match o with
  | OPlain props =>
      (λ σ, (Normal (), mkState (<[l := OPlain (<[k := v]> props)]> (heap σ)) (trace σ))) : M unit
  | OInstance _ => throw TypeError
  end.

(** [o instanceof C] *)
Definition instanceof (l : loc) (c : className) : M bool :=
  o ← deref l;
  match o with
  | OInstance c' => mret (bool_decide (c' = c))
  | OPlain _ => mret false
  end.

(** ** Strings *)

Fixpoint join (sep : string) (l : list string) : string :=
  match l with
  | [] => ""
  | [x] => x
  | x :: rest => x +:+ sep +:+ join sep rest
  end.

(** [s.split(sep)] for a string separator and no limit.  [skip] counts the
    characters of a separator just matched that are still to be passed
    over; [cur] is the piece being read, backwards. *)
Fixpoint splitFrom (sep : string) (skip : nat) (cur : string) (s : string) : list string :=
  match s with
  | EmptyString => [String.rev cur]
  | String c rest =>
      match skip with
      | S skip' => splitFrom sep skip' cur rest
      | O =>
          if String.prefix sep s
          then String.rev cur :: splitFrom sep (String.length sep - 1) "" rest
          else splitFrom sep O (String c cur) rest
      end
  end.

Definition split (s sep : string) : list string :=
  match sep with
  | EmptyString => (λ c, String c EmptyString) <$> list_ascii_of_string s
  | _ => splitFrom sep O "" s
  end.

(** The string without its first [n] characters. *)
Fixpoint dropString (n : nat) (s : string) : string :=
  match n, s with
  | S n', String _ rest => dropString n' rest
  | _, _ => s
  end.

(** ** Declared types

    [type Combinable = string | number], and the interfaces of the records;
    a record may carry more properties than its interface names. *)
Inductive Combinable : Type :=
  | Text (s : string)
  | Numeric (n : number).

Definition inject (c : Combinable) : value :=
  match c with
  | Text s => VPrim (PString s)
  | Numeric n => VPrim (PNumber n)
  end.

Definition Employee (props : gmap string value) : Prop :=
  (∃ s, props !! "name" = Some (VPrim (PString s))) ∧
  (∃ tv, props !! "startDate" = Some (VDate tv)).

Definition Admin (props : gmap string value) : Prop :=
  (∃ s, props !! "name" = Some (VPrim (PString s))) ∧
  (∃ l : list string, props !! "privileges" = Some (VArray (PString <$> l))).

Definition UnknownEmployee (props : gmap string value) : Prop :=
  Employee props ∨ Admin props.

Definition Animal (props : gmap string value) : Prop :=
  props !! "type" = Some (VPrim (PString "animal")) ∧
  (∃ n, props !! "runningSpeed" = Some (VPrim (PNumber n))).

Definition Bird (props : gmap string value) : Prop :=
  props !! "type" = Some (VPrim (PString "bird")) ∧
  (∃ n, props !! "flyingSpeed" = Some (VPrim (PNumber n))).

Definition Fauna (props : gmap string value) : Prop :=
  Animal props ∨ Bird props.

(** A call of one of the five dispatch functions. *)
Inductive call : Type :=
  | CallAdd (a b : value)
  | CallPrintEmployeeInformation (emp : loc)
  | CallOperateVehicle (vehichle : loc)
  | CallMoveFauna (fauna : loc)
  | CallAddCombinable (a b : value).

(** The arguments of a call have the types the function declares. *)
Definition wellTyped (σ : state) (c : call) : Prop :=
  match c with
  | CallAdd a b | CallAddCombinable a b =>
      (∃ x, a = inject x) ∧ (∃ y, b = inject y)
  | CallPrintEmployeeInformation emp =>
      ∃ props, heap σ !! emp = Some (OPlain props) ∧ UnknownEmployee props
  | CallOperateVehicle vehichle =>
      ∃ c, heap σ !! vehichle = Some (OInstance c)
  | CallMoveFauna fauna =>
      ∃ props, heap σ !! fauna = Some (OPlain props) ∧ Fauna props
  end.

(** ** Observations on a run *)

(** The lines printed by a sequence of events. *)
Definition printed (evs : list event) : list string :=
  omap (λ ev, match ev with Log line => Some line | Invoke _ _ _ => None end) evs.

(** The method invocations of a sequence of events. *)
Definition invocations (evs : list event) : list (loc * string * list value) :=
  omap (λ ev, match ev with
              | Invoke recv meth args => Some (recv, meth, args)
              | Log _ => None
              end) evs.

(** The events a run from [σ] to [σ'] added. *)
Definition emitted (σ σ' : state) : list event :=
  drop (length (trace σ)) (trace σ').

(** A computation that reads the store, leaves it as it is, and appends to
    the trace events that do not depend on the trace so far. *)
Definition observer {A : Type} (m : M A) : Prop :=
  ∀ h, ∃ r out, ∀ tr, m (mkState h tr) = (r, mkState h (tr ++ out)).

(** Run twice in a row, a computation gives the same result and emits the
    same events, hence prints the same lines, both times. *)
Definition repeatable {A : Type} (m : M A) : Prop :=
  ∀ σ, (m σ).1 = (m (m σ).2).1 ∧
       emitted σ (m σ).2 = emitted (m σ).2 (m (m σ).2).2 ∧
       printed (emitted σ (m σ).2) = printed (emitted (m σ).2 (m (m σ).2).2).

(** ** Sample objects of the script *)
Definition ashutosh (now : number) : object :=
  OPlain {[ "name" := str "Ashutosh";
            "privileges" := VArray [PString "drop-tables"; PString "change-schema"];
            "startDate" := VDate now ]}.

(** The arguments of the second and third call of
    [printEmployeeInformation]. *)
Definition aditya : object :=
  OPlain {[ "name" := str "Aditya"; "privileges" := VArray [PString "restart-server"] ]}.

Definition randy (now : number) : object :=
  OPlain {[ "name" := str "Randy"; "startDate" := VDate now ]}.

Definition shelbyGT : object := OInstance Car.
Definition fordRaptor : object := OInstance Truck.

Definition horse : object :=
  OPlain {[ "type" := str "animal"; "runningSpeed" := num 20 ]}.

Definition sparrow : object :=
  OPlain {[ "type" := str "bird"; "flyingSpeed" := num 10 ]}.

(** A record with a tag that is neither of the two the script declares. *)
Definition fish : object :=
  OPlain {[ "type" := str "fish"; "swimmingSpeed" := num 5 ]}.

(** A store holding the object [o] at the location [here], nothing printed
    yet. *)
Definition here : loc := 1%positive.
Definition alone (o : object) : state := mkState {[ here := o ]} [].

(** A host for closed examples, which prints every date as the epoch in
    UTC. *)
Definition epochHost (tv : number) : string :=
  "Thu Jan 01 1970 00:00:00 GMT+0000 (Coordinated Universal Time)".

(** ** Further notions for statements *)

(** [v == null]: [undefined] or [null]. *)
Definition nullish (v : value) : bool :=
  match v with
  | VPrim PUndefined | VPrim PNull => true
  | _ => false
  end.

(** [type ElevatedEmployee = Employee & Admin] *)
Definition ElevatedEmployee (props : gmap string value) : Prop :=
  Employee props ∧ Admin props.

(** The object a call is handed, if it is handed one. *)
Definition target (c : call) : option loc :=
  match c with
  | CallAdd _ _ | CallAddCombinable _ _ => None
  | CallPrintEmployeeInformation emp => Some emp
  | CallOperateVehicle vehichle => Some vehichle
  | CallMoveFauna fauna => Some fauna
  end.

(** A computation whose result and events depend on the store through the
    object at [l] alone, and which leaves the store as it is. *)
Definition footprint {A : Type} (l : loc) (m : M A) : Prop :=
  ∀ σ1 σ2, heap σ1 !! l = heap σ2 !! l →
    ∃ r out, m σ1 = (r, emit σ1 out) ∧ m σ2 = (r, emit σ2 out).

(** No character of [s] is [c]. *)
Fixpoint freeOf (c : ascii) (s : string) : bool :=
  match s with
  | EmptyString => true
  | String d rest => negb (Ascii.eqb d c) && freeOf c rest
  end.

(** ** The script *)
Section Script.

(** [Date.prototype.toString] of a time value: the text depends on the
    host's time zone. *)
Variable DateToString : number → string.

Definition primToString (p : prim) : string :=
  match p with
  | PUndefined => "undefined"
  | PNull => "null"
  | PBool b => if b then "true" else "false"
  | PNumber n => Num.toString n
  | PString s => s
  end.

(** An element in [Array.prototype.join]: [undefined] and [null] give the
    empty string. *)
Definition elementToString (p : prim) : string :=
  match p with
  | PUndefined | PNull => ""
  | _ => primToString p
  end.

(** The conversion a template literal applies to [${v}]. *)
Definition ToString (v : value) : string :=
  match v with
  | VPrim p => primToString p
  | VDate tv => DateToString tv
  | VArray elems => join "," (elementToString <$> elems)
  end.

(** [v.toString()]: [undefined] and [null] have no properties. *)
Definition toString (v : value) : M string :=
  match v with
  | VPrim PUndefined | VPrim PNull => throw TypeError
  | _ => mret (ToString v)
  end.

Definition ToPrimitive (v : value) : prim :=
  match v with
  | VPrim p => p
  | VDate _ | VArray _ => PString (ToString v)
  end.

(** The number a primitive other than a string stands for in [+]. *)
Definition numericValue (p : prim) : option number :=
  match p with
  | PUndefined => Some Num.NaN
  | PNull => Some Num.posZero
  | PBool b => Some (Num.ofZ (if b then 1 else 0))
  | PNumber n => Some n
  | PString _ => None
  end.

(** [a + b]: concatenation as soon as one operand is a string after
    [ToPrimitive], the sum of the numbers otherwise. *)
Definition plus (a b : value) : value :=
  let p := ToPrimitive a in
  let q := ToPrimitive b in
  match numericValue p, numericValue q with
  | Some x, Some y => VPrim (PNumber (Num.plus x y))
  | _, _ => VPrim (PString (primToString p +:+ primToString q))
  end.

(** *** Type guards: [typeof] *)

Definition add (a b : value) : M value :=
  if bool_decide (typeof a = TString) || bool_decide (typeof b = TString) then
    sa ← toString a;
    sb ← toString b;
    mret (str (sa +:+ sb))
  else mret (plus a b).

(** *** Type guards: [in] *)

Definition printEmployeeInformation (emp : loc) : M unit :=
  console_log "EMPLOYEE DETAILS:" ;;
  name ← getProp emp "name";
  console_log ("Name: " +:+ ToString name) ;;
  hasStartDate ← hasProp "startDate" emp;
  (if hasStartDate : bool then
     startDate ← getProp emp "startDate";
     console_log ("Start Date: " +:+ ToString startDate)
   else mret ()) ;;
  hasPrivileges ← hasProp "privileges" emp;
  (if hasPrivileges : bool then
     privileges ← getProp emp "privileges";
     console_log ("Privileges: " +:+ ToString privileges)
   else mret ()).

(** *** Type guards: [instanceof] *)

Definition Car_drive : M unit := console_log "vroom".

Definition Truck_drive : M unit := console_log "VROOM".

Definition Truck_loadCargo (weight : value) : M unit :=
  console_log ("Loading cardo : " +:+ ToString weight +:+ " kg(s)").

(** The methods of a class, by name; a missing argument is [undefined]. *)
Definition methodOf (c : className) (meth : string) : option (list value → M unit) :=
  match c with
  | Car =>
      if String.eqb meth "drive" then Some (λ _, Car_drive) else None
  | Truck =>
      if String.eqb meth "drive" then Some (λ _, Truck_drive)
      else if String.eqb meth "loadCargo"
      then Some (λ args, Truck_loadCargo (default undefined (head args)))
      else None
  end.

(** [recv.meth(args)]: a [TypeError] when [recv.meth] is not a function. *)
Definition callMethod (recv : loc) (meth : string) (args : list value) : M unit :=
  o ← deref recv;
  match o with
  | OInstance c =>
      match methodOf c meth with
      | Some body => record (Invoke recv meth args) ;; body args
      | None => throw TypeError
      end
  | OPlain _ => throw TypeError
  end.

Definition operateVehicle (vehichle : loc) : M unit :=
  console_log "Operating vehicle..." ;;
  callMethod vehichle "drive" [] ;;
  isTruck ← instanceof vehichle Truck;
  if isTruck : bool then callMethod vehichle "loadCargo" [num 420] else mret ().

(** *** Discriminated unions *)

Definition moveFauna (fauna : loc) : M unit :=
  (* [let speed: number;] declares the variable and assigns nothing:
     [None], which reads as [undefined]. *)
  let speed : option value := None in
  type ← getProp fauna "type";
  speed ← (if strictEq type (PString "animal") then
             runningSpeed ← getProp fauna "runningSpeed"; mret (Some runningSpeed)
           else if strictEq type (PString "bird") then
             flyingSpeed ← getProp fauna "flyingSpeed"; mret (Some flyingSpeed)
           else mret speed);
  console_log ("The speed of the fauna is " +:+ ToString (default undefined speed)).

(** *** Function overloading *)

Definition addCombinable (a b : value) : M value :=
  if bool_decide (typeof a = TString) || bool_decide (typeof b = TString) then
    sa ← toString a;
    sb ← toString b;
    mret (str (sa +:+ sb))
  else mret (plus a b).

(** The four overload signatures of [addCombinable], in order; the first
    that accepts the argument types gives the declared result type. *)
Definition overloads : list (typeTag * typeTag * typeTag) :=
  [ (TString, TString, TString);
    (TNumber, TString, TString);
    (TString, TNumber, TString);
    (TNumber, TNumber, TNumber) ].

Definition declaredResult (ta tb : typeTag) : option typeTag :=
  (λ found : nat * (typeTag * typeTag * typeTag), found.2.2)
    <$> list_find (λ sig, sig.1 = (ta, tb)) overloads.

(** [result.split(' ')]: only a string has the method. *)
Definition split_method (v : value) (sep : string) : M (list string) :=
  match v with
  | VPrim (PString s) => mret (split s sep)
  | _ => throw TypeError
  end.

(** [const result = addCombinable('Ashutosh', ' Bhadoria');
     const [first, last] = result.split(' ');] *)
Definition first_last : M (value * value) :=
  result ← addCombinable (str "Ashutosh") (str " Bhadoria");
  parts ← split_method result " ";
  mret (default undefined (str <$> parts !! 0%nat),
        default undefined (str <$> parts !! 1%nat)).

(** What a call evaluates to: a function that ends without [return]
    gives [undefined]. *)
Definition dispatch (c : call) : M value :=
  match c with
  | CallAdd a b => add a b
  | CallPrintEmployeeInformation emp => printEmployeeInformation emp ;; mret undefined
  | CallOperateVehicle vehichle => operateVehicle vehichle ;; mret undefined
  | CallMoveFauna fauna => moveFauna fauna ;; mret undefined
  | CallAddCombinable a b => addCombinable a b
  end.

(** [combine] as the specification words it: text concatenation of both
    inputs, converted to text, if either is text; the numeric sum
    otherwise. *)
Definition combine_spec (a b : Combinable) : Combinable :=
  match a, b with
  | Numeric x, Numeric y => Numeric (Num.plus x y)
  | _, _ => Text (ToString (inject a) +:+ ToString (inject b))
  end.

(** *** What a call prints, read off the record *)

(** The lines of [printEmployeeInformation] for a record with the
    properties [props]. *)
Definition employeeLines (props : gmap string value) : list string :=
  [ "EMPLOYEE DETAILS:";
    "Name: " +:+ ToString (default undefined (props !! "name")) ]
  ++ match props !! "startDate" with
     | Some startDate => [ "Start Date: " +:+ ToString startDate ]
     | None => []
     end
  ++ match props !! "privileges" with
     | Some privileges => [ "Privileges: " +:+ ToString privileges ]
     | None => []
     end.

(** The events of [operateVehicle] on an instance of the class [c] at
    [vehichle]. *)
Definition vehicleEvents (vehichle : loc) (c : className) : list event :=
  match c with
  | Car =>
      [ Log "Operating vehicle..."; Invoke vehichle "drive" []; Log "vroom" ]
  | Truck =>
      [ Log "Operating vehicle..."; Invoke vehichle "drive" []; Log "VROOM";
        Invoke vehichle "loadCargo" [num 420];
        Log ("Loading cardo : " +:+ ToString (num 420) +:+ " kg(s)") ]
  end.

(** The assignment to [speed] that the [switch] of [moveFauna] makes, if it
    makes one. *)
Definition speedOf (props : gmap string value) : option value :=
  let type := default undefined (props !! "type") in
  if strictEq type (PString "animal") then Some (default undefined (props !! "runningSpeed"))
  else if strictEq type (PString "bird") then Some (default undefined (props !! "flyingSpeed"))
  else None.

(** A property of the record at [l], if there is one. *)
Definition attribute (σ : state) (l : loc) (k : string) : option value :=
  match heap σ !! l with
  | Some (OPlain props) => props !! k
  | _ => None
  end.

(** *** Strings: joining the pieces of a split gives the string back *)

Lemma append_String (c : ascii) (s t : string) :
  String c s +:+ t = String c (s +:+ t).
Proof. reflexivity. Qed.

Lemma append_nil_r (s : string) : s +:+ "" = s.
Proof. induction s as [|c s IH]; [done|]. by rewrite append_String, IH. Qed.

Lemma append_assoc (s t u : string) : (s +:+ t) +:+ u = s +:+ t +:+ u.
Proof. induction s as [|c s IH]; [done|]. by rewrite !append_String, IH. Qed.

Lemma rev_app_append (s t : string) : String.rev_app s t = String.rev s +:+ t.
Proof.
  unfold String.rev. revert t.
  induction s as [|c s IH]; intros t; [done|].
  cbn [String.rev_app].
  rewrite (IH (String c t)), (IH (String c "")). by rewrite append_assoc.
Qed.

Lemma rev_String (c : ascii) (s : string) :
  String.rev (String c s) = String.rev s +:+ String c "".
Proof. unfold String.rev at 1. cbn [String.rev_app]. apply rev_app_append. Qed.

Lemma prefix_dropString (sep s : string) :
  String.prefix sep s = true → s = sep +:+ dropString (String.length sep) s.
Proof.
  revert s. induction sep as [|a sep IH]; intros s Hpre; [done|].
  destruct s as [|b s]; simpl in Hpre; [done|].
  destruct (ascii_dec a b) as [->|]; [|done].
  rewrite append_String. cbn [String.length dropString]. f_equal. by apply IH.
Qed.

Lemma prefix_length (sep s : string) :
  String.prefix sep s = true → (String.length sep ≤ String.length s)%nat.
Proof.
  revert s. induction sep as [|a sep IH]; intros s Hpre; simpl; [lia|].
  destruct s as [|b s]; simpl in Hpre; [done|].
  destruct (ascii_dec a b) as [->|]; [|done].
  simpl. apply IH in Hpre. lia.
Qed.

Lemma splitFrom_cons (sep : string) (skip : nat) (cur s : string) :
  ∃ x rest, splitFrom sep skip cur s = x :: rest.
Proof.
  revert skip cur. induction s as [|c s IH]; intros skip cur; [by eexists _, _|].
  cbn [splitFrom]. destruct skip as [|skip]; [|apply IH].
  destruct (String.prefix sep (String c s)); [by eexists _, _|apply IH].
Qed.

Lemma join_cons (sep x : string) (l : list string) :
  l ≠ [] → join sep (x :: l) = x +:+ sep +:+ join sep l.
Proof. by destruct l. Qed.

Lemma join_splitFrom (sep : string) (s : string) (skip : nat) (cur : string) :
  sep ≠ "" →
  (skip ≤ String.length s)%nat →
  join sep (splitFrom sep skip cur s) = String.rev cur +:+ dropString skip s.
Proof.
  intros Hsep. revert skip cur. induction s as [|c s IH]; intros skip cur Hskip.
  { simpl in Hskip. destruct skip; [|lia]. cbn [splitFrom join dropString].
    by rewrite append_nil_r. }
  destruct skip as [|skip].
  - cbn [splitFrom dropString].
    destruct (String.prefix sep (String c s)) eqn:Hpre.
    + destruct (splitFrom_cons sep (String.length sep - 1) "" s) as (x & rest & Hx).
      rewrite join_cons by (by rewrite Hx).
      pose proof (prefix_length _ _ Hpre) as Hlen. simpl in Hlen.
      rewrite IH by lia.
      f_equal. symmetry. etrans; [apply (prefix_dropString _ _ Hpre)|].
      destruct sep as [|a sep]; [done|].
      cbn [String.length dropString].
      by replace (S (String.length sep) - 1)%nat with (String.length sep) by lia.
    + rewrite IH by lia. by rewrite rev_String, append_assoc.
  - cbn [splitFrom dropString]. apply IH. simpl in Hskip. lia.
Qed.

(** *** Running the monad *)

Lemma observer_ret {A} (a : A) : observer (mret a).
Proof. intros h. exists (Normal a), []. intros tr. by rewrite app_nil_r. Qed.

Lemma observer_throw {A} (e : error) : observer (@throw A e).
Proof. intros h. exists (Throw e), []. intros tr. unfold throw. by rewrite app_nil_r. Qed.

Lemma observer_record (ev : event) : observer (record ev).
Proof. intros h. by exists (Normal ()), [ev]. Qed.

Lemma observer_bind {A B} (m : M A) (f : A → M B) :
  observer m → (∀ a, observer (f a)) → observer (m ≫= f).
Proof.
  intros Hm Hf h. destruct (Hm h) as (r & out & Hrun).
  destruct r as [a|e].
  - destruct (Hf a h) as (r' & out' & Hrun').
    exists r', (out ++ out'). intros tr.
    unfold mbind, M_bind. rewrite Hrun, Hrun'. by rewrite app_assoc.
  - exists (Throw e), out. intros tr.
    unfold mbind, M_bind. by rewrite Hrun.
Qed.

Lemma observer_deref (l : loc) : observer (deref l).
Proof.
  intros h. unfold deref. destruct (h !! l) as [o|] eqn:Hl.
  - exists (Normal o), []. intros tr. simpl. by rewrite Hl, app_nil_r.
  - exists (Throw (NoSuchObject l)), []. intros tr. simpl. by rewrite Hl, app_nil_r.
Qed.

Lemma observer_getProp l k : observer (getProp l k).
Proof.
  unfold getProp. apply observer_bind; [apply observer_deref|].
  intros [props|c]; apply observer_ret.
Qed.

Lemma observer_hasProp k l : observer (hasProp k l).
Proof.
  unfold hasProp. apply observer_bind; [apply observer_deref|].
  intros [props|c]; apply observer_ret.
Qed.

Lemma observer_instanceof l c : observer (instanceof l c).
Proof.
  unfold instanceof. apply observer_bind; [apply observer_deref|].
  intros [props|c']; apply observer_ret.
Qed.

Lemma observer_toString v : observer (toString v).
Proof.
  destruct v as [[]| |]; first [apply observer_throw | apply observer_ret].
Qed.

Lemma observer_console_log line : observer (console_log line).
Proof. apply observer_record. Qed.

Lemma observer_callMethod recv meth args : observer (callMethod recv meth args).
Proof.
  unfold callMethod. apply observer_bind; [apply observer_deref|].
  intros [props|c]; [apply observer_throw|].
  destruct (methodOf c meth) as [body|] eqn:Hbody; [|apply observer_throw].
  apply observer_bind; [apply observer_record|]. intros _.
  unfold methodOf in Hbody.
  destruct c; repeat case_match; simplify_eq; apply observer_console_log.
Qed.

Create HintDb observers.
#[local] Hint Resolve observer_ret observer_throw observer_record observer_deref
  observer_getProp observer_hasProp observer_instanceof observer_toString
  observer_console_log observer_callMethod : observers.

(** Follows the shape of a function body: binds, branches, primitives. *)
Ltac observe :=
  repeat first
    [ solve [ auto with observers ]
    | apply observer_bind; [ | intros ? ]
    | match goal with
      | |- observer (if ?b then _ else _) => destruct b
      end ].

Lemma observer_add a b : observer (add a b).
Proof. unfold add. observe. Qed.

Lemma observer_printEmployeeInformation emp :
  observer (printEmployeeInformation emp).
Proof. unfold printEmployeeInformation. observe. Qed.

Lemma observer_operateVehicle vehichle : observer (operateVehicle vehichle).
Proof. unfold operateVehicle. observe. Qed.

Lemma observer_moveFauna fauna : observer (moveFauna fauna).
Proof. unfold moveFauna. observe. Qed.

Lemma observer_addCombinable a b : observer (addCombinable a b).
Proof. unfold addCombinable. observe. Qed.

Lemma observer_dispatch c : observer (dispatch c).
Proof.
  destruct c; simpl;
    auto using observer_add, observer_addCombinable;
    (apply observer_bind; [ | intros ?; apply observer_ret ]);
    auto using observer_printEmployeeInformation, observer_operateVehicle,
      observer_moveFauna.
Qed.

Lemma observer_heap {A} (m : M A) (σ : state) :
  observer m → heap (m σ).2 = heap σ.
Proof.
  intros Hm. destruct σ as [h tr]. destruct (Hm h) as (r & out & Hrun).
  by rewrite Hrun.
Qed.

Lemma emitted_app h h' tr out :
  emitted (mkState h tr) (mkState h' (tr ++ out)) = out.
Proof. unfold emitted. simpl. apply drop_app_length. Qed.

Lemma observer_repeatable {A} (m : M A) : observer m → repeatable m.
Proof.
  intros Hm [h tr]. destruct (Hm h) as (r & out & Hrun).
  rewrite !Hrun. simpl. rewrite !Hrun. simpl. by rewrite !emitted_app.
Qed.

(** An assignment to a property is seen by these notions: it is not an
    observer, and the attribute reads differently afterwards. *)
Lemma setProp_not_observer :
  ¬ observer (setProp here "runningSpeed" (num 0)) ∧
  attribute (alone horse) here "runningSpeed" = Some (num 20) ∧
  attribute (setProp here "runningSpeed" (num 0) (alone horse)).2 here "runningSpeed"
    = Some (num 0).
Proof.
  split; [|by vm_compute].
  intros Hobs.
  pose proof (observer_heap _ (alone horse) Hobs) as Hheap.
  apply (f_equal (λ h, h !! here)) in Hheap.
  vm_compute in Hheap. discriminate Hheap.
Qed.

(** *** Running the primitives on a known store *)

Lemma bind_run {A B} (m : M A) (f : A → M B) σ a σ' :
  m σ = (Normal a, σ') → (m ≫= f) σ = f a σ'.
Proof. intros Hm. unfold mbind, M_bind. by rewrite Hm. Qed.

Lemma bind_bind_run {A B C} (m : M A) (f : A → M B) (g : B → M C) σ :
  ((m ≫= f) ≫= g) σ = (m ≫= λ a, f a ≫= g) σ.
Proof. unfold mbind, M_bind. by destruct (m σ) as [[a|e] σ']. Qed.

Lemma console_log_run line σ : console_log line σ = (Normal (), emit σ [Log line]).
Proof. reflexivity. Qed.

Lemma deref_run l o σ : heap σ !! l = Some o → deref l σ = (Normal o, σ).
Proof. intros Hl. unfold deref. by rewrite Hl. Qed.

Lemma getProp_run l props k σ :
  heap σ !! l = Some (OPlain props) →
  getProp l k σ = (Normal (default undefined (props !! k)), σ).
Proof. intros Hl. unfold getProp. by rewrite (bind_run _ _ _ _ _ (deref_run _ _ _ Hl)). Qed.

Lemma hasProp_run l props k σ :
  heap σ !! l = Some (OPlain props) →
  hasProp k l σ = (Normal (bool_decide (is_Some (props !! k))), σ).
Proof. intros Hl. unfold hasProp. by rewrite (bind_run _ _ _ _ _ (deref_run _ _ _ Hl)). Qed.

Lemma instanceof_run l c c' σ :
  heap σ !! l = Some (OInstance c') →
  instanceof l c σ = (Normal (bool_decide (c' = c)), σ).
Proof. intros Hl. unfold instanceof. by rewrite (bind_run _ _ _ _ _ (deref_run _ _ _ Hl)). Qed.

Lemma emit_emit σ evs evs' : emit (emit σ evs) evs' = emit σ (evs ++ evs').
Proof. unfold emit. simpl. by rewrite app_assoc. Qed.

(** One statement of a body whose effect on the store at hand is known. *)
Ltac run_step :=
  first
    [ rewrite bind_bind_run
    | erewrite bind_run by apply console_log_run
    | erewrite bind_run by (apply getProp_run; simpl; eassumption)
    | erewrite bind_run by (apply hasProp_run; simpl; eassumption)
    | erewrite bind_run by (apply instanceof_run; simpl; eassumption)
    | erewrite bind_run by (apply deref_run; simpl; eassumption)
    | erewrite bind_run by reflexivity
    | rewrite console_log_run
    | rewrite emit_emit ].

Lemma printEmployeeInformation_run emp props σ :
  heap σ !! emp = Some (OPlain props) →
  printEmployeeInformation emp σ = (Normal (), emit σ (Log <$> employeeLines props)).
Proof.
  intros Hemp. unfold printEmployeeInformation, employeeLines.
  do 4 run_step.
  destruct (props !! "startDate") as [startDate|] eqn:Hstart;
    destruct (props !! "privileges") as [privileges|] eqn:Hpriv.
  all: repeat first
    [ rewrite bool_decide_true by eauto
    | rewrite bool_decide_false by (by intros [? ?]) ].
  all: repeat first [run_step | rewrite Hstart | rewrite Hpriv
                    | rewrite bool_decide_true by eauto
                    | rewrite bool_decide_false by (by intros [? ?]) ]; simpl.
  all: reflexivity.
Qed.

Lemma callMethod_run recv c meth body args σ :
  heap σ !! recv = Some (OInstance c) →
  methodOf c meth = Some body →
  callMethod recv meth args σ = body args (emit σ [Invoke recv meth args]).
Proof.
  intros Hrecv Hmeth. unfold callMethod.
  rewrite (bind_run _ _ _ _ _ (deref_run _ _ _ Hrecv)). by rewrite Hmeth.
Qed.

Lemma bind_congr_run {A B} (m m' : M A) (f : A → M B) σ σ' :
  m σ = m' σ' → (m ≫= f) σ = (m' ≫= f) σ'.
Proof. intros Hm. unfold mbind, M_bind. by rewrite Hm. Qed.

Lemma operateVehicle_run vehichle c σ :
  heap σ !! vehichle = Some (OInstance c) →
  operateVehicle vehichle σ = (Normal (), emit σ (vehicleEvents vehichle c)).
Proof.
  intros Hv. unfold operateVehicle, vehicleEvents. run_step.
  destruct c.
  - rewrite (bind_congr_run _ _ _ _ _
               (callMethod_run _ Car "drive" _ []
                  (emit σ [Log "Operating vehicle..."]) Hv eq_refl)).
    unfold Car_drive. repeat run_step.
    rewrite bool_decide_false by discriminate. by repeat run_step.
  - rewrite (bind_congr_run _ _ _ _ _
               (callMethod_run _ Truck "drive" _ []
                  (emit σ [Log "Operating vehicle..."]) Hv eq_refl)).
    unfold Truck_drive. repeat run_step.
    rewrite bool_decide_true by reflexivity.
    erewrite (callMethod_run _ Truck "loadCargo") by (first [exact Hv | reflexivity]).
    unfold Truck_loadCargo. simpl head. by repeat run_step.
Qed.

Lemma moveFauna_run fauna props σ :
  heap σ !! fauna = Some (OPlain props) →
  moveFauna fauna σ =
    (Normal (),
     emit σ [Log ("The speed of the fauna is "
                  +:+ ToString (default undefined (speedOf props)))]).
Proof.
  intros Hf. unfold moveFauna, speedOf. run_step.
  destruct (strictEq (default undefined (props !! "type")) (PString "animal"));
    [| destruct (strictEq (default undefined (props !! "type")) (PString "bird"))];
    by repeat run_step.
Qed.

Lemma strictEq_string v s : strictEq v (PString s) = true ↔ v = str s.
Proof.
  destruct v as [[]| |]; simpl; try (split; [discriminate | by inversion 1]).
  rewrite String.eqb_eq. split; [by intros -> | by inversion 1].
Qed.

Lemma strictEq_string_ne v s : v ≠ str s → strictEq v (PString s) = false.
Proof.
  intros Hne. destruct (strictEq v (PString s)) eqn:Heq; [|done].
  by apply strictEq_string in Heq.
Qed.

Lemma add_inject a b σ :
  add (inject a) (inject b) σ = (Normal (inject (combine_spec a b)), σ).
Proof. by destruct a, b. Qed.

Lemma addCombinable_names σ :
  addCombinable (str "Ashutosh") (str " Bhadoria") σ
  = (Normal (str "Ashutosh Bhadoria"), σ).
Proof. reflexivity. Qed.

Lemma toString_small :
  Num.toString (Num.ofZ 1) = "1" ∧ Num.toString (Num.ofZ 10) = "10" ∧
  Num.toString (Num.ofZ 20) = "20" ∧ Num.toString (Num.ofZ 420) = "420".
Proof. by vm_compute. Qed.

Lemma one_plus_two : Num.plus (Num.ofZ 1) (Num.ofZ 2) = Num.ofZ 3.
Proof. by vm_compute. Qed.

Lemma employeeLines_start_date props text :
  "Start Date: " +:+ text ∈ employeeLines props → is_Some (props !! "startDate").
Proof.
  unfold employeeLines. intros Hin.
  destruct (props !! "startDate") as [startDate|]; [by eexists|].
  destruct (props !! "privileges") as [privileges|];
    set_unfold in Hin; destruct_or!; discriminate.
Qed.

Lemma employeeLines_privileges props text :
  "Privileges: " +:+ text ∈ employeeLines props → is_Some (props !! "privileges").
Proof.
  unfold employeeLines. intros Hin.
  destruct (props !! "privileges") as [privileges|]; [by eexists|].
  destruct (props !! "startDate") as [startDate|];
    set_unfold in Hin; destruct_or!; discriminate.
Qed.

(** *** The claims *)

(** C1: on inputs that are each a string or a number, [add] returns the
    concatenation of the string conversions of both as soon as one of
    them is a string, and the sum of the two numbers otherwise, which is
    what the specification asks of [combine]; [add("1","2")] is ["12"],
    [add(1,"2")] is ["12"] and [add(1,2)] is [3]. *)
Theorem add_combine (σ : state) :
  (∀ a b : Combinable,
     add (inject a) (inject b) σ = (Normal (inject (combine_spec a b)), σ)) ∧
  (∀ (s : string) (b : Combinable),
     add (str s) (inject b) σ = (Normal (str (s +:+ ToString (inject b))), σ)) ∧
  (∀ (a : Combinable) (t : string),
     add (inject a) (str t) σ = (Normal (str (ToString (inject a) +:+ t)), σ)) ∧
  (∀ x y : number,
     add (VPrim (PNumber x)) (VPrim (PNumber y)) σ
     = (Normal (VPrim (PNumber (Num.plus x y))), σ)) ∧
  add (str "1") (str "2") σ = (Normal (str "12"), σ) ∧
  add (num 1) (str "2") σ = (Normal (str "12"), σ) ∧
  add (num 1) (num 2) σ = (Normal (num 3), σ).
Proof.
  split_and!.
  - intros a b. apply add_inject.
  - intros s b. apply (add_inject (Text s) b).
  - intros a t. rewrite (add_inject a (Text t)). by destruct a.
  - intros x y. apply (add_inject (Numeric x) (Numeric y)).
  - reflexivity.
  - rewrite (add_inject (Numeric (Num.ofZ 1)) (Text "2")).
    unfold combine_spec, inject, ToString, primToString.
    by rewrite (proj1 toString_small).
  - rewrite (add_inject (Numeric (Num.ofZ 1)) (Numeric (Num.ofZ 2))).
    unfold combine_spec, inject, num. by rewrite one_plus_two.
Qed.

(** C2 (as amended): [addCombinable("Ashutosh", " Bhadoria")] is
    ["Ashutosh Bhadoria"], and splitting it on the space yields the two
    tokens ["Ashutosh"] and ["Bhadoria"]: the first argument, and the
    second argument without its leading space, which the split consumes
    as the delimiter.  Joining the tokens with a space gives the result
    back. *)
Theorem first_last_tokens (σ : state) :
  addCombinable (str "Ashutosh") (str " Bhadoria") σ
    = (Normal (str "Ashutosh Bhadoria"), σ) ∧
  split "Ashutosh Bhadoria" " " = ["Ashutosh"; "Bhadoria"] ∧
  first_last σ = (Normal (str "Ashutosh", str "Bhadoria"), σ) ∧
  join " " (split "Ashutosh Bhadoria" " ") = "Ashutosh Bhadoria".
Proof.
  split_and!; [apply addCombinable_names | reflexivity | | reflexivity].
  unfold first_last. by rewrite (bind_run _ _ _ _ _ (addCombinable_names σ)).
Qed.

(** C3: on a record whose [type] is neither ["animal"] nor ["bird"],
    [moveFauna] leaves the [switch] without assigning [speed], throws
    nothing, and prints the speed as ["undefined"]. *)
Theorem moveFauna_unknown_tag (fauna : loc) (props : gmap string value) (σ : state) :
  heap σ !! fauna = Some (OPlain props) →
  default undefined (props !! "type") ≠ str "animal" →
  default undefined (props !! "type") ≠ str "bird" →
  speedOf props = None ∧
  moveFauna fauna σ
    = (Normal (), emit σ [Log "The speed of the fauna is undefined"]).
Proof.
  intros Hf Hanimal Hbird.
  assert (speedOf props = None) as Hspeed.
  { unfold speedOf. by rewrite !strictEq_string_ne. }
  split; [done|]. by rewrite (moveFauna_run _ _ _ Hf), Hspeed.
Qed.

(** C4: [addCombinable] returns what [add] returns on the same inputs, in
    every state; on strings and numbers the result has the type that the
    matching overload signature declares. *)
Theorem addCombinable_add (a b : value) (σ : state) :
  addCombinable a b σ = add a b σ ∧
  (∀ x y : Combinable, ∃ v,
     addCombinable (inject x) (inject y) σ = (Normal v, σ) ∧
     add (inject x) (inject y) σ = (Normal v, σ) ∧
     declaredResult (typeof (inject x)) (typeof (inject y)) = Some (typeof v)).
Proof.
  split; [reflexivity|].
  intros x y. exists (inject (combine_spec x y)).
  split_and!; [apply add_inject | apply add_inject | by destruct x, y].
Qed.

(** C5: for a record with a [name], [printEmployeeInformation] prints the
    name; a start-date line is printed exactly when the record has a
    [startDate] property, a privileges line exactly when it has a
    [privileges] property, and a record with both gets both lines. *)
Theorem printEmployeeInformation_lines
    (emp : loc) (props : gmap string value) (name : value) (σ : state) :
  heap σ !! emp = Some (OPlain props) →
  props !! "name" = Some name →
  printEmployeeInformation emp σ
    = (Normal (), emit σ (Log <$> employeeLines props)) ∧
  "Name: " +:+ ToString name ∈ employeeLines props ∧
  ((∃ text, "Start Date: " +:+ text ∈ employeeLines props)
     ↔ is_Some (props !! "startDate")) ∧
  ((∃ text, "Privileges: " +:+ text ∈ employeeLines props)
     ↔ is_Some (props !! "privileges")) ∧
  (∀ startDate privileges,
     props !! "startDate" = Some startDate →
     props !! "privileges" = Some privileges →
     employeeLines props =
       [ "EMPLOYEE DETAILS:"; "Name: " +:+ ToString name;
         "Start Date: " +:+ ToString startDate;
         "Privileges: " +:+ ToString privileges ]).
Proof.
  intros Hemp Hname. split_and!.
  - by apply printEmployeeInformation_run.
  - unfold employeeLines. rewrite Hname. set_solver.
  - split.
    + intros (text & Hin). by eapply employeeLines_start_date.
    + intros [startDate Hstart]. exists (ToString startDate).
      unfold employeeLines. rewrite Hstart. set_solver.
  - split.
    + intros (text & Hin). by eapply employeeLines_privileges.
    + intros [privileges Hpriv]. exists (ToString privileges).
      unfold employeeLines. rewrite Hpriv. set_solver.
  - intros startDate privileges Hstart Hpriv.
    unfold employeeLines. by rewrite Hname, Hstart, Hpriv.
Qed.

(** C6: on a vehicle, [operateVehicle] invokes [drive()]; it invokes
    [loadCargo], with the weight 420, exactly when the object is an
    instance of [Truck]; on a [Car] the only invocation is [drive()]. *)
Theorem operateVehicle_invocations (vehichle : loc) (c : className) (σ : state) :
  heap σ !! vehichle = Some (OInstance c) →
  operateVehicle vehichle σ = (Normal (), emit σ (vehicleEvents vehichle c)) ∧
  invocations (vehicleEvents vehichle c)
    = (vehichle, "drive", []) ::
      (if bool_decide (c = Truck) then [ (vehichle, "loadCargo", [num 420]) ] else []) ∧
  printed (vehicleEvents vehichle c)
    = "Operating vehicle..." ::
      match c with
      | Car => [ "vroom" ]
      | Truck => [ "VROOM"; "Loading cardo : 420 kg(s)" ]
      end ∧
  (vehichle, "drive", []) ∈ invocations (vehicleEvents vehichle c) ∧
  ((∃ args, (vehichle, "loadCargo", args) ∈ invocations (vehicleEvents vehichle c))
     ↔ c = Truck) ∧
  (∀ args, (vehichle, "loadCargo", args) ∈ invocations (vehicleEvents vehichle c) →
           args = [num 420]).
Proof.
  intros Hv. split; [by apply operateVehicle_run|].
  split; [by destruct c|].
  split.
  { destruct c; [done|]. unfold vehicleEvents, ToString, primToString, num.
    by rewrite (proj2 (proj2 (proj2 toString_small))). }
  destruct c; cbn [vehicleEvents invocations omap list_omap]; split_and!.
  - set_solver.
  - split; [|done]. intros [args Hin]. set_unfold in Hin.
    destruct Hin as [Hin|[]]. discriminate Hin.
  - intros args Hin. set_unfold in Hin. destruct Hin as [Hin|[]]. discriminate Hin.
  - set_solver.
  - split; [done|]. intros _. exists [num 420]. set_solver.
  - intros args Hin. set_unfold in Hin.
    destruct Hin as [Hin|[Hin|[]]]; [discriminate Hin | by simplify_eq].
Qed.

(** C7: on a record with a legal tag, [moveFauna] prints the speed
    attribute that goes with the tag: [runningSpeed] for ["animal"],
    [flyingSpeed] for ["bird"]; for [horse] it reports 20 and for
    [sparrow] 10. *)
Theorem moveFauna_speed :
  (∀ (fauna : loc) (props : gmap string value) (n : number) (σ : state),
     heap σ !! fauna = Some (OPlain props) →
     props !! "type" = Some (str "animal") →
     props !! "runningSpeed" = Some (VPrim (PNumber n)) →
     moveFauna fauna σ
       = (Normal (), emit σ [Log ("The speed of the fauna is " +:+ Num.toString n)])) ∧
  (∀ (fauna : loc) (props : gmap string value) (n : number) (σ : state),
     heap σ !! fauna = Some (OPlain props) →
     props !! "type" = Some (str "bird") →
     props !! "flyingSpeed" = Some (VPrim (PNumber n)) →
     moveFauna fauna σ
       = (Normal (), emit σ [Log ("The speed of the fauna is " +:+ Num.toString n)])) ∧
  (∀ (fauna : loc) (σ : state),
     heap σ !! fauna = Some horse →
     moveFauna fauna σ = (Normal (), emit σ [Log "The speed of the fauna is 20"])) ∧
  (∀ (fauna : loc) (σ : state),
     heap σ !! fauna = Some sparrow →
     moveFauna fauna σ = (Normal (), emit σ [Log "The speed of the fauna is 10"])).
Proof.
  assert (∀ (fauna : loc) (props : gmap string value) (n : number) (σ : state),
     heap σ !! fauna = Some (OPlain props) →
     props !! "type" = Some (str "animal") →
     props !! "runningSpeed" = Some (VPrim (PNumber n)) →
     moveFauna fauna σ
       = (Normal (), emit σ [Log ("The speed of the fauna is " +:+ Num.toString n)]))
    as Hanimal.
  { intros fauna props n σ Hf Htype Hspeed.
    rewrite (moveFauna_run _ _ _ Hf). unfold speedOf. by rewrite Htype, Hspeed. }
  assert (∀ (fauna : loc) (props : gmap string value) (n : number) (σ : state),
     heap σ !! fauna = Some (OPlain props) →
     props !! "type" = Some (str "bird") →
     props !! "flyingSpeed" = Some (VPrim (PNumber n)) →
     moveFauna fauna σ
       = (Normal (), emit σ [Log ("The speed of the fauna is " +:+ Num.toString n)]))
    as Hbird.
  { intros fauna props n σ Hf Htype Hspeed.
    rewrite (moveFauna_run _ _ _ Hf). unfold speedOf. by rewrite Htype, Hspeed. }
  split_and!; [done | done | |].
  - intros fauna σ Hf.
    rewrite (Hanimal fauna _ (Num.ofZ 20) σ Hf); [|by vm_compute..].
    by rewrite (proj1 (proj2 (proj2 toString_small))).
  - intros fauna σ Hf.
    rewrite (Hbird fauna _ (Num.ofZ 10) σ Hf); [|by vm_compute..].
    by rewrite (proj1 (proj2 toString_small)).
Qed.

(** C8: two calls of a dispatch function in a row, on the same input,
    give the same result and emit the same events, hence print the same
    lines: nothing is carried from one call to the next. *)
Theorem dispatch_repeatable (c : call) : repeatable (dispatch c).
Proof. apply observer_repeatable, observer_dispatch. Qed.

(** C9: a call whose arguments have the declared types returns; it does
    not throw. *)
Theorem dispatch_total (c : call) (σ : state) :
  wellTyped σ c → ∃ v σ', dispatch c σ = (Normal v, σ').
Proof.
  destruct c as [a b|emp|vehichle|fauna|a b]; simpl.
  - intros [[x ->] [y ->]]. eexists _, _. apply add_inject.
  - intros (props & Hemp & _). eexists _, _.
    by rewrite (bind_run _ _ _ _ _ (printEmployeeInformation_run _ _ _ Hemp)).
  - intros (c & Hv). eexists _, _.
    by rewrite (bind_run _ _ _ _ _ (operateVehicle_run _ _ _ Hv)).
  - intros (props & Hf & _). eexists _, _.
    by rewrite (bind_run _ _ _ _ _ (moveFauna_run _ _ _ Hf)).
  - intros [[x ->] [y ->]]. eexists _, _. apply add_inject.
Qed.

(** C10: no dispatch function changes a record: after a call the store
    is the one before it, so every attribute of every record reads as it
    did. *)
Theorem dispatch_keeps_records (σ : state) (l : loc) :
  heap (printEmployeeInformation l σ).2 = heap σ ∧
  heap (operateVehicle l σ).2 = heap σ ∧
  heap (moveFauna l σ).2 = heap σ ∧
  (∀ (c : call) (l' : loc) (k : string),
     attribute (dispatch c σ).2 l' k = attribute σ l' k).
Proof.
  split_and!.
  - apply observer_heap, observer_printEmployeeInformation.
  - apply observer_heap, observer_operateVehicle.
  - apply observer_heap, observer_moveFauna.
  - intros c l' k. unfold attribute.
    by rewrite (observer_heap _ σ (observer_dispatch c)).
Qed.

(** *** Further properties of [add] *)

Lemma plus_comm (x y : number) : Num.plus x y = Num.plus y x.
Proof.
  unfold Num.plus.
  destruct x as [sx|sx| |sx mx ex], y as [sy|sy| |sy my ey]; simpl;
    try reflexivity; try (by destruct sx, sy).
  unfold SFadd. by rewrite (Z.min_comm ey ex), Z.add_comm.
Qed.

(** X1: on arguments that are [undefined], [null], booleans, numbers,
    strings, [Date] objects or arrays of such primitives (the values of
    this development, which has no symbols and no bigints), [add] throws,
    a [TypeError], exactly when one argument is a string and one is
    [undefined] or [null]; in every other case it returns a value.  Either
    way it prints nothing and leaves the state as it is. *)
Theorem add_throws_iff (a b : value) (σ : state) :
  ((bool_decide (typeof a = TString) || bool_decide (typeof b = TString))
     && (nullish a || nullish b) = true
   → add a b σ = (Throw TypeError, σ)) ∧
  ((bool_decide (typeof a = TString) || bool_decide (typeof b = TString))
     && (nullish a || nullish b) = false
   → ∃ v, add a b σ = (Normal v, σ)).
Proof.
  destruct a as [[]| |], b as [[]| |]; cbn [typeof nullish bool_decide];
    split; intros Hc; try discriminate Hc; try reflexivity;
    by eexists.
Qed.

(** X2: on two numbers [add] is commutative. *)
Theorem add_numbers_commute (x y : number) (σ : state) :
  add (VPrim (PNumber x)) (VPrim (PNumber y)) σ
  = add (VPrim (PNumber y)) (VPrim (PNumber x)) σ.
Proof.
  rewrite (add_inject (Numeric x) (Numeric y)), (add_inject (Numeric y) (Numeric x)).
  unfold combine_spec, inject. by rewrite plus_comm.
Qed.

(** X3: [add(add(a, b), c)] is [add(a, add(b, c))] when the middle argument
    [b] is a string and [a], [c] are strings or numbers. *)
Theorem add_assoc_middle_string (a c : Combinable) (b : string) (σ : state) :
  (r ← add (inject a) (str b); add r (inject c)) σ
  = (r ← add (str b) (inject c); add (inject a) r) σ.
Proof.
  rewrite (bind_run _ _ _ _ _ (add_inject a (Text b) σ)).
  rewrite (bind_run _ _ _ _ _ (add_inject (Text b) c σ)).
  assert (combine_spec a (Text b) = Text (ToString (inject a) +:+ b)) as ->
    by (by destruct a).
  assert (combine_spec (Text b) c = Text (b +:+ ToString (inject c))) as ->
    by (by destruct c).
  rewrite (add_inject (Text _) c), (add_inject a (Text _)).
  destruct a, c; unfold combine_spec, inject, ToString, primToString;
    by rewrite append_assoc.
Qed.

(** Without a string in the middle the two groupings differ:
    [add(add(1, 2), "3")] is ["33"], [add(1, add(2, "3"))] is ["123"]. *)
Lemma add_not_associative (σ : state) :
  (r ← add (num 1) (num 2); add r (str "3")) σ = (Normal (str "33"), σ) ∧
  (r ← add (num 2) (str "3"); add (num 1) r) σ = (Normal (str "123"), σ).
Proof. split; by vm_compute. Qed.

(** X4: concatenating the empty string converts to a string:
    [add(a, "")] and [add("", a)] are the string conversion of [a], so a
    string comes back unchanged and a number comes back as its text. *)
Theorem add_empty_string (a : Combinable) (σ : state) :
  add (inject a) (str "") σ = (Normal (str (ToString (inject a))), σ) ∧
  add (str "") (inject a) σ = (Normal (str (ToString (inject a))), σ).
Proof.
  rewrite (add_inject a (Text "")), (add_inject (Text "") a).
  split; destruct a; unfold combine_spec, inject, ToString, primToString, str;
    by rewrite ?append_nil_r.
Qed.

(** *** Further properties of the record functions *)

Lemma emitted_emit σ out : emitted σ (emit σ out) = out.
Proof. unfold emitted, emit. simpl. apply drop_app_length. Qed.

Lemma getProp_run_instance l c k σ :
  heap σ !! l = Some (OInstance c) → getProp l k σ = (Normal undefined, σ).
Proof. intros Hl. unfold getProp. by rewrite (bind_run _ _ _ _ _ (deref_run _ _ _ Hl)). Qed.

Lemma hasProp_run_instance l c k σ :
  heap σ !! l = Some (OInstance c) → hasProp k l σ = (Normal false, σ).
Proof. intros Hl. unfold hasProp. by rewrite (bind_run _ _ _ _ _ (deref_run _ _ _ Hl)). Qed.

Lemma printEmployeeInformation_run_instance emp c σ :
  heap σ !! emp = Some (OInstance c) →
  printEmployeeInformation emp σ
  = (Normal (), emit σ [Log "EMPLOYEE DETAILS:"; Log "Name: undefined"]).
Proof.
  intros Hemp. unfold printEmployeeInformation. run_step.
  erewrite bind_run by (apply (getProp_run_instance _ c); exact Hemp).
  run_step.
  erewrite bind_run by (apply (hasProp_run_instance _ c); exact Hemp).
  run_step.
  erewrite bind_run by (apply (hasProp_run_instance _ c); exact Hemp).
  by repeat run_step.
Qed.

Lemma moveFauna_run_instance fauna c σ :
  heap σ !! fauna = Some (OInstance c) →
  moveFauna fauna σ = (Normal (), emit σ [Log "The speed of the fauna is undefined"]).
Proof.
  intros Hf. unfold moveFauna.
  erewrite bind_run by (apply (getProp_run_instance _ c); exact Hf).
  by repeat run_step.
Qed.

Lemma employeeLines_length props :
  (2 ≤ length (employeeLines props) ≤ 4)%nat.
Proof.
  unfold employeeLines.
  destruct (props !! "startDate"), (props !! "privileges"); simpl; lia.
Qed.

Lemma join_strings (l : list string) :
  join "," (elementToString <$> (PString <$> l)) = join "," l.
Proof.
  assert (elementToString <$> (PString <$> l) = l) as ->; [|done].
  induction l as [|x l IH]; [done|]. simpl. by f_equal.
Qed.

(** X5: on an instance of [Car] or [Truck], and on a record whose
    properties hold data of the kinds of this development ([undefined],
    [null], booleans, numbers, strings, [Date] objects, arrays of such
    primitives; no symbols, no accessors), [printEmployeeInformation] does
    not throw, whichever properties the record has: it prints between two
    and four lines, the header first, and when there is no [name] the
    second line is ["Name: undefined"]. *)
Theorem printEmployeeInformation_any_object (emp : loc) (o : object) (σ : state) :
  heap σ !! emp = Some o →
  ∃ rest : list string,
    printEmployeeInformation emp σ
      = (Normal (), emit σ (Log <$> "EMPLOYEE DETAILS:" :: rest)) ∧
    (1 ≤ length rest ≤ 3)%nat ∧
    (match o with
     | OPlain props => props !! "name" = None
     | OInstance _ => True
     end → head rest = Some "Name: undefined").
Proof.
  intros Hemp. destruct o as [props|c].
  - exists (tail (employeeLines props)).
    pose proof (employeeLines_length props) as Hlen.
    rewrite (printEmployeeInformation_run _ _ _ Hemp).
    unfold employeeLines in *. cbn [app tail] in *.
    split; [done|]. split; [simpl in *; lia|].
    intros Hname. by rewrite Hname.
  - exists ["Name: undefined"].
    rewrite (printEmployeeInformation_run_instance _ _ _ Hemp).
    split; [done|]. split; [simpl; lia|done].
Qed.

(** X6: for a record of the intersection type [ElevatedEmployee], with a
    string [name], a [Date] [startDate] and a [string[]] [privileges],
    [printEmployeeInformation] prints four lines: the header, the name,
    the date as the host prints it, and the privileges joined by commas. *)
Theorem printEmployeeInformation_elevated
    (emp : loc) (props : gmap string value)
    (name : string) (tv : number) (privs : list string) (σ : state) :
  heap σ !! emp = Some (OPlain props) →
  props !! "name" = Some (str name) →
  props !! "startDate" = Some (VDate tv) →
  props !! "privileges" = Some (VArray (PString <$> privs)) →
  ElevatedEmployee props ∧
  printEmployeeInformation emp σ
  = (Normal (),
     emit σ (Log <$> [ "EMPLOYEE DETAILS:";
                       "Name: " +:+ name;
                       "Start Date: " +:+ DateToString tv;
                       "Privileges: " +:+ join "," privs ])).
Proof.
  intros Hemp Hname Hstart Hpriv. split.
  { split; split; eauto. }
  rewrite (printEmployeeInformation_run _ _ _ Hemp).
  unfold employeeLines. rewrite Hname, Hstart, Hpriv.
  cbn [ToString default primToString str]. by rewrite join_strings.
Qed.

(** X7: [printEmployeeInformation] reads [name], [startDate] and
    [privileges] and nothing else: two records that agree on these three
    properties are printed alike. *)
Theorem printEmployeeInformation_ignores_others
    (emp emp' : loc) (props props' : gmap string value) (σ σ' : state) :
  heap σ !! emp = Some (OPlain props) →
  heap σ' !! emp' = Some (OPlain props') →
  props !! "name" = props' !! "name" →
  props !! "startDate" = props' !! "startDate" →
  props !! "privileges" = props' !! "privileges" →
  (printEmployeeInformation emp σ).1 = (printEmployeeInformation emp' σ').1 ∧
  emitted σ (printEmployeeInformation emp σ).2
  = emitted σ' (printEmployeeInformation emp' σ').2.
Proof.
  intros Hemp Hemp' Hname Hstart Hpriv.
  rewrite (printEmployeeInformation_run _ _ _ Hemp).
  rewrite (printEmployeeInformation_run _ _ _ Hemp').
  assert (employeeLines props = employeeLines props') as ->.
  { unfold employeeLines. by rewrite Hname, Hstart, Hpriv. }
  simpl. by rewrite !emitted_emit.
Qed.

Lemma bind_throw_run {A B} (m : M A) (f : A → M B) σ e σ' :
  m σ = (Throw e, σ') → (m ≫= f) σ = (Throw e, σ').
Proof. intros Hm. unfold mbind, M_bind. by rewrite Hm. Qed.

Lemma callMethod_run_plain recv props meth args σ :
  heap σ !! recv = Some (OPlain props) →
  callMethod recv meth args σ = (Throw TypeError, σ).
Proof.
  intros Hrecv. unfold callMethod.
  by rewrite (bind_run _ _ _ _ _ (deref_run _ _ _ Hrecv)).
Qed.

(** X8: handed a record whose properties hold data (none of them a
    function), [operateVehicle] prints ["Operating vehicle..."] and then
    throws a [TypeError], there being no [drive] to call; so among such
    records and the instances of [Car] and [Truck] it returns exactly on
    the instances. *)
Theorem operateVehicle_returns_iff_instance (vehichle : loc) (o : object) (σ : state) :
  heap σ !! vehichle = Some o →
  ((∃ σ', operateVehicle vehichle σ = (Normal (), σ')) ↔ ∃ c, o = OInstance c) ∧
  (∀ props, o = OPlain props →
     operateVehicle vehichle σ
     = (Throw TypeError, emit σ [Log "Operating vehicle..."])).
Proof.
  intros Hv.
  assert (∀ props, o = OPlain props →
     operateVehicle vehichle σ
     = (Throw TypeError, emit σ [Log "Operating vehicle..."])) as Hplain.
  { intros props ->. unfold operateVehicle. run_step.
    apply bind_throw_run. by apply (callMethod_run_plain _ props). }
  split; [|done]. destruct o as [props|c].
  - rewrite (Hplain props eq_refl). split; [by intros [σ' Hσ']|by intros [c Hc]].
  - rewrite (operateVehicle_run _ _ _ Hv). split; eauto.
Qed.

(** X10: on an instance of [Car] or [Truck], and on a record whose
    properties hold data of the kinds of this development (no symbols, no
    accessors), [moveFauna] does not throw, whichever properties the
    record has: it prints one line, which starts with
    ["The speed of the fauna is "]. *)
Theorem moveFauna_any_object (fauna : loc) (o : object) (σ : state) :
  heap σ !! fauna = Some o →
  ∃ text, moveFauna fauna σ
          = (Normal (), emit σ [Log ("The speed of the fauna is " +:+ text)]).
Proof.
  intros Hf. destruct o as [props|c].
  - eexists. by apply moveFauna_run.
  - exists "undefined". by apply (moveFauna_run_instance _ c).
Qed.

(** X11: for the tag ["animal"] [moveFauna] prints the string conversion
    of the [runningSpeed] property and looks at no other, for ["bird"]
    that of the [flyingSpeed] property, the property holding data of the
    kinds of this development (no symbols); when the record lacks that
    property the speed printed is ["undefined"], even if it has the other
    one. *)
Theorem moveFauna_selected_attribute
    (fauna : loc) (props : gmap string value) (σ : state) :
  heap σ !! fauna = Some (OPlain props) →
  (props !! "type" = Some (str "animal") →
     moveFauna fauna σ
     = (Normal (),
        emit σ [Log ("The speed of the fauna is "
                     +:+ ToString (default undefined (props !! "runningSpeed")))])) ∧
  (props !! "type" = Some (str "bird") →
     moveFauna fauna σ
     = (Normal (),
        emit σ [Log ("The speed of the fauna is "
                     +:+ ToString (default undefined (props !! "flyingSpeed")))])) ∧
  (props !! "type" = Some (str "animal") → props !! "runningSpeed" = None →
     moveFauna fauna σ
     = (Normal (), emit σ [Log "The speed of the fauna is undefined"])) ∧
  (props !! "type" = Some (str "bird") → props !! "flyingSpeed" = None →
     moveFauna fauna σ
     = (Normal (), emit σ [Log "The speed of the fauna is undefined"])).
Proof.
  intros Hf. rewrite (moveFauna_run _ _ _ Hf). unfold speedOf.
  split_and!.
  - by intros ->.
  - by intros ->.
  - by intros -> ->.
  - by intros -> ->.
Qed.

(** *** What a call reads, and how calls compose *)

Lemma emit_nil σ : emit σ [] = σ.
Proof. destruct σ. unfold emit. simpl. by rewrite app_nil_r. Qed.

Lemma footprint_ret {A} l (a : A) : footprint l (mret a).
Proof. intros σ1 σ2 _. exists (Normal a), []. by rewrite !emit_nil. Qed.

Lemma footprint_throw {A} l (e : error) : footprint l (@throw A e).
Proof. intros σ1 σ2 _. exists (Throw e), []. by rewrite !emit_nil. Qed.

Lemma footprint_record l (ev : event) : footprint l (record ev).
Proof. intros σ1 σ2 _. by exists (Normal ()), [ev]. Qed.

Lemma footprint_deref l : footprint l (deref l).
Proof.
  intros σ1 σ2 Hl. unfold deref. rewrite <-Hl.
  destruct (heap σ1 !! l) as [o|].
  - exists (Normal o), []. by rewrite !emit_nil.
  - exists (Throw (NoSuchObject l)), []. by rewrite !emit_nil.
Qed.

Lemma footprint_bind {A B} l (m : M A) (f : A → M B) :
  footprint l m → (∀ a, footprint l (f a)) → footprint l (m ≫= f).
Proof.
  intros Hm Hf σ1 σ2 Hl. destruct (Hm σ1 σ2 Hl) as (r & out & Hr1 & Hr2).
  destruct r as [a|e].
  - destruct (Hf a (emit σ1 out) (emit σ2 out) Hl) as (r' & out' & Hr1' & Hr2').
    exists r', (out ++ out').
    rewrite (bind_run _ _ _ _ _ Hr1), (bind_run _ _ _ _ _ Hr2).
    by rewrite Hr1', Hr2', !emit_emit.
  - exists (Throw e), out.
    by rewrite (bind_throw_run _ _ _ _ _ Hr1), (bind_throw_run _ _ _ _ _ Hr2).
Qed.

Lemma footprint_getProp l k : footprint l (getProp l k).
Proof.
  unfold getProp. apply footprint_bind; [apply footprint_deref|].
  intros [props|c]; apply footprint_ret.
Qed.

Lemma footprint_hasProp l k : footprint l (hasProp k l).
Proof.
  unfold hasProp. apply footprint_bind; [apply footprint_deref|].
  intros [props|c]; apply footprint_ret.
Qed.

Lemma footprint_instanceof l c : footprint l (instanceof l c).
Proof.
  unfold instanceof. apply footprint_bind; [apply footprint_deref|].
  intros [props|c']; apply footprint_ret.
Qed.

Lemma footprint_toString l v : footprint l (toString v).
Proof.
  destruct v as [[]| |]; first [apply footprint_throw | apply footprint_ret].
Qed.

Lemma footprint_console_log l line : footprint l (console_log line).
Proof. apply footprint_record. Qed.

Lemma footprint_callMethod l meth args : footprint l (callMethod l meth args).
Proof.
  unfold callMethod. apply footprint_bind; [apply footprint_deref|].
  intros [props|c]; [apply footprint_throw|].
  destruct (methodOf c meth) as [body|] eqn:Hbody; [|apply footprint_throw].
  apply footprint_bind; [apply footprint_record|]. intros _.
  unfold methodOf in Hbody.
  destruct c; repeat case_match; simplify_eq; apply footprint_console_log.
Qed.

#[local] Hint Resolve footprint_ret footprint_throw footprint_record
  footprint_getProp footprint_hasProp footprint_instanceof footprint_toString
  footprint_console_log footprint_callMethod : observers.

(** Follows the shape of a function body, as [observe] does. *)
Ltac trace_reads :=
  repeat first
    [ solve [ auto with observers ]
    | apply footprint_bind; [ | intros ? ]
    | match goal with
      | |- footprint _ (if ?b then _ else _) => destruct b
      end ].

Lemma add_pure (a b : value) : ∃ r, ∀ σ, add a b σ = (r, σ).
Proof. destruct a as [[]| |], b as [[]| |]; by eexists. Qed.

Lemma footprint_dispatch (c : call) (l : loc) :
  target c = Some l → footprint l (dispatch c).
Proof.
  intros Hl. destruct c as [a b|emp|vehichle|fauna|a b]; simplify_eq/=.
  - unfold printEmployeeInformation. trace_reads.
  - unfold operateVehicle. trace_reads.
  - unfold moveFauna. trace_reads.
Qed.

(** X12: a call reads the store through the one object it is handed and
    through nothing else: on two stores that hold the same object there
    (whatever else they hold, and whatever was printed before) the call
    has the same outcome and prints the same; [add] and [addCombinable]
    read no object at all. *)
Theorem dispatch_reads_only_target (c : call) (σ1 σ2 : state) :
  (∀ l, target c = Some l → heap σ1 !! l = heap σ2 !! l) →
  (dispatch c σ1).1 = (dispatch c σ2).1 ∧
  emitted σ1 (dispatch c σ1).2 = emitted σ2 (dispatch c σ2).2.
Proof.
  intros Hsame. destruct (target c) as [l|] eqn:Htarget.
  - destruct (footprint_dispatch c l Htarget σ1 σ2 (Hsame l eq_refl))
      as (r & out & -> & ->).
    simpl. by rewrite !emitted_emit.
  - assert (∃ r, ∀ σ, dispatch c σ = (r, σ)) as [r Hr].
    { destruct c; try discriminate Htarget; apply add_pure. }
    rewrite !Hr. simpl. split; [done|].
    unfold emitted. by rewrite !drop_all.
Qed.

(** X13: calls compose by concatenation: when the first of two calls in a
    row returns, the second has the outcome and the output it has on its
    own and the lines of both follow one another; when the first throws,
    the second is not run. *)
Theorem dispatch_sequence (c1 c2 : call) (σ : state) :
  (dispatch c1 ≫= λ _, dispatch c2) σ
  = match (dispatch c1 σ).1 with
    | Normal _ =>
        ((dispatch c2 σ).1,
         emit σ (emitted σ (dispatch c1 σ).2 ++ emitted σ (dispatch c2 σ).2))
    | Throw e => (Throw e, (dispatch c1 σ).2)
    end.
Proof.
  destruct σ as [h tr].
  destruct (observer_dispatch c1 h) as (r1 & out1 & Hrun1).
  destruct (observer_dispatch c2 h) as (r2 & out2 & Hrun2).
  unfold mbind, M_bind. rewrite Hrun1, (Hrun2 tr). simpl.
  rewrite !emitted_app. destruct r1 as [v|e]; [|done].
  rewrite Hrun2. unfold emit. simpl. by rewrite app_assoc.
Qed.

(** *** Splitting what was concatenated *)

Lemma prefix_nil (s : string) : String.prefix "" s = true.
Proof. by destruct s. Qed.

Lemma splitFrom_free (c : ascii) (cur b : string) :
  freeOf c b = true →
  splitFrom (String c "") 0 cur b = [String.rev cur +:+ b].
Proof.
  revert cur. induction b as [|d b IH]; intros cur Hfree.
  { cbn [splitFrom]. by rewrite append_nil_r. }
  cbn [freeOf] in Hfree. apply andb_true_iff in Hfree as [Hd Hfree].
  apply negb_true_iff, Ascii.eqb_neq in Hd.
  cbn [splitFrom String.prefix].
  destruct (ascii_dec c d) as [->|_]; [done|].
  rewrite IH by done. by rewrite rev_String, append_assoc.
Qed.

Lemma splitFrom_piece (c : ascii) (cur a rest : string) :
  freeOf c a = true →
  splitFrom (String c "") 0 cur (a +:+ String c rest)
  = (String.rev cur +:+ a) :: splitFrom (String c "") 0 "" rest.
Proof.
  revert cur. induction a as [|d a IH]; intros cur Hfree.
  { change ("" +:+ String c rest) with (String c rest).
    cbn [splitFrom String.prefix].
    destruct (ascii_dec c c) as [_|]; [|done].
    by rewrite prefix_nil, append_nil_r. }
  cbn [freeOf] in Hfree. apply andb_true_iff in Hfree as [Hd Hfree].
  apply negb_true_iff, Ascii.eqb_neq in Hd.
  rewrite append_String. cbn [splitFrom String.prefix].
  destruct (ascii_dec c d) as [->|_]; [done|].
  rewrite IH by done. by rewrite rev_String, append_assoc.
Qed.

Lemma split_join_char (c : ascii) (l : list string) :
  l ≠ [] → Forall (λ piece, freeOf c piece = true) l →
  split (join (String c "") l) (String c "") = l.
Proof.
  intros Hne Hfree. unfold split.
  induction Hfree as [|x l Hx Hl IH]; [done|].
  destruct l as [|y l].
  - cbn [join]. by rewrite splitFrom_free.
  - change (join (String c "") (x :: y :: l))
      with (x +:+ String c (join (String c "") (y :: l))).
    rewrite splitFrom_piece by done. by rewrite IH.
Qed.

(** X14: joining the pieces of a split with the separator gives the
    string back, for every string and every separator that is not
    empty. *)
Theorem split_then_join (s sep : string) :
  sep ≠ "" → join sep (split s sep) = s.
Proof.
  intros Hsep. unfold split. destruct sep as [|a sep]; [done|].
  by rewrite join_splitFrom by (done || lia).
Qed.

(** X15: for two names without a space, splitting
    [addCombinable(first, " " + last)] on the space gives back
    [first] and [last]. *)
Theorem addCombinable_split_names (first last : string) (σ : state) :
  freeOf " " first = true → freeOf " " last = true →
  (result ← addCombinable (str first) (str (" " +:+ last));
   split_method result " ") σ
  = (Normal [first; last], σ).
Proof.
  intros Hfirst Hlast.
  rewrite (bind_run _ _ σ (str (first +:+ " " +:+ last)) σ) by done.
  unfold split_method, str.
  change (first +:+ " " +:+ last) with (join " " [first; last]).
  rewrite split_join_char; [done|done|].
  by repeat constructor.
Qed.

(** X16: for a separator that is not empty,
    [addCombinable(a, b).split(sep)] throws a [TypeError] exactly when both
    arguments are numbers, the sum having no [split]; as soon as one is a
    string it returns the pieces of the concatenation. *)
Theorem addCombinable_then_split (a b : Combinable) (sep : string) (σ : state) :
  sep ≠ "" →
  (result ← addCombinable (inject a) (inject b); split_method result sep) σ
  = match a, b with
    | Numeric _, Numeric _ => (Throw TypeError, σ)
    | _, _ =>
        (Normal (split (ToString (inject a) +:+ ToString (inject b)) sep), σ)
    end.
Proof. intros _. by destruct a, b. Qed.

End Script.

(** ** Closed instances *)

(** [Number::toString] on numbers of each kind, as an engine prints them. *)
Example toString_examples :
  Num.toString (Num.ofZ 0) = "0" ∧
  Num.toString (S754_zero true) = "0" ∧
  Num.toString (Num.ofZ (-20)) = "-20" ∧
  Num.toString (Num.ofDecimal 15 (-1)) = "1.5" ∧
  Num.toString (Num.plus (Num.ofDecimal 1 (-1)) (Num.ofDecimal 2 (-1)))
    = "0.30000000000000004" ∧
  Num.toString (Num.ofDecimal 123456 (-3)) = "123.456" ∧
  Num.toString (Num.ofDecimal 1 (-6)) = "0.000001" ∧
  Num.toString (Num.ofDecimal 1 (-7)) = "1e-7" ∧
  Num.toString (Num.ofDecimal 1 20) = "100000000000000000000" ∧
  Num.toString (Num.ofDecimal 1 21) = "1e+21" ∧
  Num.toString (Num.ofZ (2 ^ 53)) = "9007199254740992" ∧
  Num.toString (Num.ofZ (2 ^ 64)) = "18446744073709552000" ∧
  Num.toString (S754_finite false 1 (-1074)) = "5e-324" ∧
  Num.toString (S754_finite false 2 (-1074)) = "1e-323" ∧
  Num.toString (Num.ofDecimal 17976931348623157 292) = "1.7976931348623157e+308" ∧
  Num.toString (Num.ofDecimal 1 400) = "Infinity" ∧
  Num.toString (Num.plus (Num.ofDecimal 1 400) (Num.ofDecimal (-1) 400)) = "NaN".
Proof. by vm_compute. Qed.

(** Two decimals of seventeen digits equally near to the number: the even
    one is printed. *)
Example toString_ties :
  Num.toString (Num.ofDecimal 100000000000000375 (-3)) = "100000000000000.38" ∧
  Num.toString (Num.ofDecimal 100000000000000125 (-3)) = "100000000000000.12" ∧
  Num.toString (Num.ofDecimal 70368744177664375 (-3)) = "70368744177664.38" ∧
  Num.toString (Num.ofDecimal 70368744177664625 (-3)) = "70368744177664.62".
Proof. by vm_compute. Qed.

(** Outside the declared types a call can throw: [undefined] has no
    [toString], and a record is not a vehicle. *)
Example add_undefined_throws :
  add epochHost undefined (str "2") (alone horse) = (Throw TypeError, alone horse).
Proof. reflexivity. Qed.

Example operateVehicle_record_throws :
  (operateVehicle epochHost here (alone horse)).1 = Throw TypeError.
Proof. reflexivity. Qed.

(** The three calls of [printEmployeeInformation] in the script. *)
Example printEmployeeInformation_calls :
  printed (trace (printEmployeeInformation epochHost here (alone (ashutosh Num.posZero))).2)
    = [ "EMPLOYEE DETAILS:"; "Name: Ashutosh";
        "Start Date: Thu Jan 01 1970 00:00:00 GMT+0000 (Coordinated Universal Time)";
        "Privileges: drop-tables,change-schema" ] ∧
  printed (trace (printEmployeeInformation epochHost here (alone aditya)).2)
    = [ "EMPLOYEE DETAILS:"; "Name: Aditya"; "Privileges: restart-server" ] ∧
  printed (trace (printEmployeeInformation epochHost here (alone (randy Num.posZero))).2)
    = [ "EMPLOYEE DETAILS:"; "Name: Randy";
        "Start Date: Thu Jan 01 1970 00:00:00 GMT+0000 (Coordinated Universal Time)" ].
Proof. by vm_compute. Qed.

(** The split of the result does not give back the second argument
    [" Bhadoria"]: its leading space is the delimiter. *)
Lemma split_not_the_arguments :
  ¬ ∃ r : string,
      addCombinable epochHost (str "Ashutosh") (str " Bhadoria") (alone horse)
        = (Normal (str r), alone horse) ∧
      split r " " = ["Ashutosh"; " Bhadoria"].
Proof.
  intros (r & Hr & Hsplit). rewrite addCombinable_names in Hr.
  injection Hr as <-. vm_compute in Hsplit. discriminate Hsplit.
Qed.

(** [moveFauna] on a record tagged ["fish"]. *)
Lemma moveFauna_unknown_tag_witness :
  moveFauna epochHost here (alone fish)
  = (Normal (), emit (alone fish) [Log "The speed of the fauna is undefined"]).
Proof.
  apply (moveFauna_unknown_tag epochHost here
           {[ "type" := str "fish"; "swimmingSpeed" := num 5 ]} (alone fish)).
  - reflexivity.
  - vm_compute. discriminate.
  - vm_compute. discriminate.
Defined.

(** [printEmployeeInformation] on a record with a name and privileges
    only. *)
Lemma printEmployeeInformation_lines_witness :
  printEmployeeInformation epochHost here (alone aditya)
  = (Normal (),
     emit (alone aditya)
       (Log <$> [ "EMPLOYEE DETAILS:"; "Name: Aditya"; "Privileges: restart-server" ])).
Proof.
  refine (proj1 (printEmployeeInformation_lines epochHost here
           {[ "name" := str "Aditya"; "privileges" := VArray [PString "restart-server"] ]}
           (str "Aditya") (alone aditya) _ _)).
  - reflexivity.
  - reflexivity.
Defined.

(** [operateVehicle(fordRaptor)]. *)
Lemma operateVehicle_invocations_witness :
  operateVehicle epochHost here (alone fordRaptor)
  = (Normal (), emit (alone fordRaptor) (vehicleEvents epochHost here Truck)).
Proof.
  refine (proj1 (operateVehicle_invocations epochHost here Truck (alone fordRaptor) _)).
  reflexivity.
Defined.

(** [moveFauna(horse)]. *)
Lemma moveFauna_speed_witness :
  moveFauna epochHost here (alone horse)
  = (Normal (), emit (alone horse) [Log "The speed of the fauna is 20"]).
Proof.
  refine (proj1 (moveFauna_speed epochHost) here
            {[ "type" := str "animal"; "runningSpeed" := num 20 ]}
            (Num.ofZ 20) (alone horse) _ _ _).
  - reflexivity.
  - reflexivity.
  - reflexivity.
Defined.

(** The call [moveFauna(sparrow)] is well typed and returns. *)
Lemma dispatch_total_witness :
  ∃ v σ', dispatch epochHost (CallMoveFauna here) (alone sparrow) = (Normal v, σ').
Proof.
  apply (dispatch_total epochHost (CallMoveFauna here) (alone sparrow)).
  simpl. eexists. split; [reflexivity|].
  right. split; [reflexivity|]. eexists. reflexivity.
Defined.

(** ** Closed instances of the further properties *)

(** [add(undefined, "2")] throws. *)
Lemma add_throws_iff_witness :
  add epochHost undefined (str "2") (alone horse) = (Throw TypeError, alone horse).
Proof.
  apply (proj1 (add_throws_iff epochHost undefined (str "2") (alone horse))).
  reflexivity.
Defined.

(** [printEmployeeInformation] on a record without a name. *)
Lemma printEmployeeInformation_any_object_witness :
  ∃ rest : list string,
    printEmployeeInformation epochHost here (alone fish)
      = (Normal (), emit (alone fish) (Log <$> "EMPLOYEE DETAILS:" :: rest)) ∧
    (1 ≤ length rest ≤ 3)%nat ∧
    (match fish with
     | OPlain props => props !! "name" = None
     | OInstance _ => True
     end → head rest = Some "Name: undefined").
Proof.
  apply (printEmployeeInformation_any_object epochHost here fish (alone fish)).
  reflexivity.
Defined.

(** [printEmployeeInformation(ashutosh)]. *)
Lemma printEmployeeInformation_elevated_witness :
  printEmployeeInformation epochHost here (alone (ashutosh Num.posZero))
  = (Normal (),
     emit (alone (ashutosh Num.posZero))
       (Log <$> [ "EMPLOYEE DETAILS:";
                  "Name: Ashutosh";
                  "Start Date: " +:+ epochHost Num.posZero;
                  "Privileges: drop-tables,change-schema" ])).
Proof.
  refine (proj2 (printEmployeeInformation_elevated epochHost here
            {[ "name" := str "Ashutosh";
               "privileges" := VArray [PString "drop-tables"; PString "change-schema"];
               "startDate" := VDate Num.posZero ]}
            "Ashutosh" Num.posZero ["drop-tables"; "change-schema"]
            (alone (ashutosh Num.posZero)) _ _ _ _)).
  - reflexivity.
  - reflexivity.
  - reflexivity.
  - reflexivity.
Defined.

(** A further property, [id], does not show in the output. *)
Lemma printEmployeeInformation_ignores_others_witness :
  emitted (alone aditya) (printEmployeeInformation epochHost here (alone aditya)).2
  = emitted
      (mkState {[ 2%positive :=
                    OPlain {[ "name" := str "Aditya";
                              "privileges" := VArray [PString "restart-server"];
                              "id" := num 7 ]} ]} [])
      (printEmployeeInformation epochHost 2%positive
         (mkState {[ 2%positive :=
                       OPlain {[ "name" := str "Aditya";
                                 "privileges" := VArray [PString "restart-server"];
                                 "id" := num 7 ]} ]} [])).2.
Proof.
  refine (proj2 (printEmployeeInformation_ignores_others epochHost here 2%positive
            {[ "name" := str "Aditya"; "privileges" := VArray [PString "restart-server"] ]}
            {[ "name" := str "Aditya";
               "privileges" := VArray [PString "restart-server"];
               "id" := num 7 ]}
            (alone aditya)
            (mkState {[ 2%positive :=
                          OPlain {[ "name" := str "Aditya";
                                    "privileges" := VArray [PString "restart-server"];
                                    "id" := num 7 ]} ]} [])
            _ _ _ _ _)).
  - reflexivity.
  - reflexivity.
  - reflexivity.
  - reflexivity.
  - reflexivity.
Defined.

(** [operateVehicle] handed the record [horse]. *)
Lemma operateVehicle_returns_iff_instance_witness :
  operateVehicle epochHost here (alone horse)
  = (Throw TypeError, emit (alone horse) [Log "Operating vehicle..."]).
Proof.
  refine (proj2 (operateVehicle_returns_iff_instance epochHost here horse (alone horse) _)
            {[ "type" := str "animal"; "runningSpeed" := num 20 ]} _).
  - reflexivity.
  - reflexivity.
Defined.

(** [moveFauna] handed a [Truck]. *)
Lemma moveFauna_any_object_witness :
  ∃ text, moveFauna epochHost here (alone fordRaptor)
          = (Normal (),
             emit (alone fordRaptor) [Log ("The speed of the fauna is " +:+ text)]).
Proof.
  apply (moveFauna_any_object epochHost here fordRaptor (alone fordRaptor)).
  reflexivity.
Defined.

(** An animal with a [flyingSpeed] and no [runningSpeed]. *)
Lemma moveFauna_selected_attribute_witness :
  moveFauna epochHost here
    (alone (OPlain {[ "type" := str "animal"; "flyingSpeed" := num 10 ]}))
  = (Normal (),
     emit (alone (OPlain {[ "type" := str "animal"; "flyingSpeed" := num 10 ]}))
       [Log "The speed of the fauna is undefined"]).
Proof.
  refine (proj1 (proj2 (proj2 (moveFauna_selected_attribute epochHost here
            {[ "type" := str "animal"; "flyingSpeed" := num 10 ]} _ _))) _ _).
  - reflexivity.
  - reflexivity.
  - reflexivity.
Defined.

(** [moveFauna(horse)] in a store that holds [sparrow] as well and has
    printed a line already. *)
Lemma dispatch_reads_only_target_witness :
  (dispatch epochHost (CallMoveFauna here) (alone horse)).1
  = (dispatch epochHost (CallMoveFauna here)
       (mkState {[ here := horse; 2%positive := sparrow ]} [Log "vroom"])).1 ∧
  emitted (alone horse) (dispatch epochHost (CallMoveFauna here) (alone horse)).2
  = emitted (mkState {[ here := horse; 2%positive := sparrow ]} [Log "vroom"])
      (dispatch epochHost (CallMoveFauna here)
         (mkState {[ here := horse; 2%positive := sparrow ]} [Log "vroom"])).2.
Proof.
  apply (dispatch_reads_only_target epochHost (CallMoveFauna here)).
  intros l Hl. injection Hl as <-. reflexivity.
Defined.

(** The script's string and separator. *)
Lemma split_then_join_witness :
  join " " (split "Ashutosh Bhadoria" " ") = "Ashutosh Bhadoria".
Proof. apply split_then_join. discriminate. Defined.

(** The script's two names. *)
Lemma addCombinable_split_names_witness :
  (result ← addCombinable epochHost (str "Ashutosh") (str (" " +:+ "Bhadoria"));
   split_method result " ") (alone horse)
  = (Normal ["Ashutosh"; "Bhadoria"], alone horse).
Proof.
  apply (addCombinable_split_names epochHost "Ashutosh" "Bhadoria" (alone horse)).
  - reflexivity.
  - reflexivity.
Defined.

(** [addCombinable(1, "2").split(",")]. *)
Lemma addCombinable_then_split_witness :
  (result ← addCombinable epochHost (num 1) (str "2"); split_method result ",")
    (alone horse)
  = (Normal ["12"], alone horse).
Proof.
  refine (addCombinable_then_split epochHost (Numeric (Num.ofZ 1)) (Text "2") ","
            (alone horse) _).
  discriminate.
Defined.
